(** * Black-Scholes pricing and Greeks: a shallow embedding of [main.py]

    The six formula functions of [main.py] ([compute_option_price],
    [compute_delta], [compute_gamma], [compute_theta], [compute_vega],
    [compute_rho]) and the module-level sweep over spot prices are
    translated function by function.

    Numbers.  The program computes with numpy's [float64].  Here a
    [float64] is an extended real: a finite real number, one of the two
    infinities, or NaN.  Finite arithmetic is exact (no rounding, no
    overflow or underflow) and zero carries no sign (a zero divisor acts
    as [+0.0]); the special cases of division, logarithm, square root and
    the normal distribution functions at zero and at the infinities follow
    IEEE 754 and numpy, which return [inf] or [nan] (with a warning) and
    raise nothing.

    The normal distribution.  [scipy.stats.norm.pdf] is the Gaussian
    density, defined below.  [scipy.stats.norm.cdf] on finite arguments is
    a variable [Phi] of the sections; each theorem lists the facts about
    the standard normal distribution function it relies on.

    Effects.  The only effect of the six functions is the call
    [st.sidebar.error] of their [except] branch; the interface state is
    the list of messages shown in the sidebar, threaded explicitly. *)

From Stdlib Require Import Reals ROrderedType Lra Lia ZArith List String.
Import ListNotations.

Open Scope R_scope.

(** ** numpy floats *)

Inductive float64 : Type :=
| Fin (x : R)
| PInf
| NInf
| NaN.

Module Np.


Definition neg (a : float64) : float64 :=
  match a with
  | Fin x => Fin (- x)
  | PInf => NInf
  | NInf => PInf
  | NaN => NaN
  end.

Definition add (a b : float64) : float64 :=
  match a, b with
  | NaN, _ | _, NaN => NaN
  | Fin x, Fin y => Fin (x + y)
  | PInf, NInf | NInf, PInf => NaN
  | PInf, _ | _, PInf => PInf
  | NInf, _ | _, NInf => NInf
  end.

Definition sub (a b : float64) : float64 := add a (neg b).

(** The product of an infinity and a finite number [x]: [c] is the
    comparison of [x] with zero and [pos] tells whether the infinity is
    the positive one.  A zero factor gives NaN. *)
Definition inf_times (c : comparison) (pos : bool) : float64 :=
  match c with
  | Eq => NaN
  | Gt => if pos then PInf else NInf
  | Lt => if pos then NInf else PInf
  end.

Definition mul (a b : float64) : float64 :=
  match a, b with
  | NaN, _ | _, NaN => NaN
  | Fin x, Fin y => Fin (x * y)
  | Fin x, PInf | PInf, Fin x => inf_times (Rcompare x 0) true
  | Fin x, NInf | NInf, Fin x => inf_times (Rcompare x 0) false
  | PInf, PInf | NInf, NInf => PInf
  | PInf, NInf | NInf, PInf => NInf
  end.

(** Division.  A finite number over zero is an infinity of the sign of
    the numerator, and [0/0] is NaN; numpy warns and raises nothing. *)
Definition div (a b : float64) : float64 :=
  match a, b with
  | NaN, _ | _, NaN => NaN
  | Fin x, Fin y =>
      match Rcompare y 0 with
      | Eq => inf_times (Rcompare x 0) true
      | _ => Fin (x / y)
      end
  | Fin _, PInf | Fin _, NInf => Fin 0
  | PInf, Fin y =>
      match Rcompare y 0 with Lt => NInf | _ => PInf end
  | NInf, Fin y =>
      match Rcompare y 0 with Lt => PInf | _ => NInf end
  | _, _ => NaN
  end.

(** [x ** 2] *)
Definition square (a : float64) : float64 := mul a a.

(** [np.log]: minus infinity at zero, NaN below. *)
Definition log (a : float64) : float64 :=
  match a with
  | Fin x =>
      match Rcompare x 0 with
      | Gt => Fin (ln x)
      | Eq => NInf
      | Lt => NaN
      end
  | PInf => PInf
  | NInf | NaN => NaN
  end.

(** [np.sqrt]: NaN below zero. *)
Definition sqrt (a : float64) : float64 :=
  match a with
  | Fin x =>
      match Rcompare x 0 with
      | Lt => NaN
      | _ => Fin (R_sqrt.sqrt x)
      end
  | PInf => PInf
  | NInf | NaN => NaN
  end.

(** [np.exp] *)
Definition exp (a : float64) : float64 :=
  match a with
  | Fin x => Fin (Rtrigo_def.exp x)
  | PInf => PInf
  | NInf => Fin 0
  | NaN => NaN
  end.

End Np.

Declare Scope np_scope.
Delimit Scope np_scope with np.
Bind Scope np_scope with float64.
Infix "+" := Np.add : np_scope.
Infix "-" := Np.sub : np_scope.
Infix "*" := Np.mul : np_scope.
Infix "/" := Np.div : np_scope.
Notation "- a" := (Np.neg a) : np_scope.

(** ** scipy.stats.norm *)

Module Norm.

(** The standard normal density, [exp(-x**2/2) / sqrt(2*pi)]. *)
Definition density (x : R) : R := exp (- (x * x) / 2) / sqrt (2 * PI).

(** [norm.pdf]: zero at both infinities. *)
Definition pdf (a : float64) : float64 :=
  match a with
  | Fin x => Fin (density x)
  | PInf | NInf => Fin 0
  | NaN => NaN
  end.

(** [norm.cdf], given the distribution function [Phi] on the reals:
    0 at minus infinity and 1 at plus infinity. *)
Definition cdf (Phi : R -> R) (a : float64) : float64 :=
  match a with
  | Fin x => Fin (Phi x)
  | PInf => Fin 1
  | NInf => Fin 0
  | NaN => NaN
  end.

End Norm.

(** ** Python values, locals and the interface state *)

(** What a call returns: a float, or [None] when the function ends
    without [return]. *)
Inductive pyval : Type :=
| PyNone
| PyFloat (x : float64).

Inductive exception : Type :=
| UnboundLocalError (name : string).

(** A local variable is unbound until an assignment runs. *)
Definition local := option float64.

(** Reading a local variable; an unbound one raises. *)
Definition load (name : string) (v : local) : exception + float64 :=
  match v with
  | Some x => inr x
  | None => inl (UnboundLocalError name)
  end.

(** The interface state: the messages shown by [st.sidebar.error], the
    oldest first. *)
Record streamlit : Type := { sidebar_errors : list string }.

Definition st_sidebar_error (msg : string) (ui : streamlit) : streamlit :=
  {| sidebar_errors := sidebar_errors ui ++ [msg] |}.

(** The interface state before anything was reported. *)
Definition fresh : streamlit := {| sidebar_errors := [] |}.

Definition ensure_msg : string :=
  "Ensure all parameters are correctly entered!".

(** [try: ... return v / except: st.sidebar.error(...)]: the bare
    [except] catches every exception of the body, reports the fixed
    message, and the function then falls off its end, returning [None]. *)
Definition try_return (body : exception + float64) (ui : streamlit)
  : pyval * streamlit :=
  match body with
  | inr v => (PyFloat v, ui)
  | inl _ => (PyNone, st_sidebar_error ensure_msg ui)
  end.

(** [if option_type == "call": v = e1 / elif option_type == "put": v = e2]:
    any other string leaves [v] unbound. *)
Definition by_option_type (option_type : string) (e1 e2 : float64) : local :=
  if String.eqb option_type "call" then Some e1
  else if String.eqb option_type "put" then Some e2
  else None.

(** A call that returns a float fixed by its explicit arguments and
    leaves the interface state as it found it. *)
Definition pure_call (f : streamlit -> pyval * streamlit) : Prop :=
  exists v : float64, forall ui : streamlit, f ui = (PyFloat v, ui).

(** ** The six formula functions *)

Section Engine.

(** The standard normal distribution function behind [norm.cdf]. *)
Variable Phi : R -> R.

Local Abbreviation norm_cdf := (Norm.cdf Phi).
Local Abbreviation norm_pdf := Norm.pdf.

Definition compute_option_price
    (spot strike rate maturity vol : float64) (option_type : string)
    (ui : streamlit) : pyval * streamlit :=
  let d1 := ((Np.log (spot / strike)
              + (rate + Np.square vol / Fin 2) * maturity)
             / (vol * Np.sqrt maturity))%np in
  let d2 := (d1 - vol * Np.sqrt maturity)%np in
  try_return
    (let price :=
       by_option_type option_type
         (spot * norm_cdf d1
          - strike * Np.exp (- rate * maturity) * norm_cdf d2)%np
         (strike * Np.exp (- rate * maturity) * norm_cdf (- d2)
          - spot * norm_cdf (- d1))%np in
     load "price" price)
    ui.

Definition compute_delta
    (spot strike rate maturity vol : float64) (option_type : string)
    (ui : streamlit) : pyval * streamlit :=
  let d1 := ((Np.log (spot / strike)
              + (rate + Np.square vol / Fin 2) * maturity)
             / (vol * Np.sqrt maturity))%np in
  try_return
    (let delta :=
       by_option_type option_type
         (norm_cdf d1)
         (- norm_cdf (- d1))%np in
     load "delta" delta)
    ui.

Definition compute_gamma
    (spot strike rate maturity vol : float64)
    (ui : streamlit) : pyval * streamlit :=
  let d1 := ((Np.log (spot / strike)
              + (rate + Np.square vol / Fin 2) * maturity)
             / (vol * Np.sqrt maturity))%np in
  try_return
    (let gamma := (norm_pdf d1 / (spot * vol * Np.sqrt maturity))%np in
     inr gamma)
    ui.

Definition compute_theta
    (spot strike rate maturity vol : float64) (option_type : string)
    (ui : streamlit) : pyval * streamlit :=
  let d1 := ((Np.log (spot / strike)
              + (rate + Np.square vol / Fin 2) * maturity)
             / (vol * Np.sqrt maturity))%np in
  let d2 := (d1 - vol * Np.sqrt maturity)%np in
  try_return
    (let theta :=
       by_option_type option_type
         (- (spot * norm_pdf d1 * vol) / (Fin 2 * Np.sqrt maturity)
          - rate * strike * Np.exp (- rate * maturity) * norm_cdf d2)%np
         (- (spot * norm_pdf d1 * vol) / (Fin 2 * Np.sqrt maturity)
          + rate * strike * Np.exp (- rate * maturity) * norm_cdf (- d2))%np in
     match load "theta" theta with
     | inr t => inr (t / Fin 365)%np
     | inl e => inl e
     end)
    ui.

Definition compute_vega
    (spot strike rate maturity vol : float64)
    (ui : streamlit) : pyval * streamlit :=
  let d1 := ((Np.log (spot / strike)
              + (rate + Np.square vol / Fin 2) * maturity)
             / (vol * Np.sqrt maturity))%np in
  try_return
    (let vega := (spot * Np.sqrt maturity * norm_pdf d1 * Fin 0.01)%np in
     inr vega)
    ui.

Definition compute_rho
    (spot strike rate maturity vol : float64) (option_type : string)
    (ui : streamlit) : pyval * streamlit :=
  let d2 := ((Np.log (spot / strike)
              + (rate - Np.square vol / Fin 2) * maturity)
             / (vol * Np.sqrt maturity))%np in
  try_return
    (let rho :=
       by_option_type option_type
         (Fin 0.01 * strike * maturity * Np.exp (- rate * maturity)
          * norm_cdf d2)%np
         (Fin (- 0.01) * strike * maturity * Np.exp (- rate * maturity)
          * norm_cdf (- d2))%np in
     load "rho" rho)
    ui.

End Engine.

(** ** The formulas of the specification, on the reals *)

Module Formula.

Definition d1 (S K r T sigma : R) : R :=
  (ln (S / K) + (r + sigma ^ 2 / 2) * T) / (sigma * sqrt T).

Definition d2 (S K r T sigma : R) : R :=
  d1 S K r T sigma - sigma * sqrt T.

(** The [d2] of rho, through [r - sigma^2/2]. *)
Definition d2_direct (S K r T sigma : R) : R :=
  (ln (S / K) + (r - sigma ^ 2 / 2) * T) / (sigma * sqrt T).

(** The parameter sets the specification calls valid. *)
Definition valid (S K r T sigma : R) : Prop :=
  0 < S /\ 0 < K /\ 0 <= r /\ 0 < T /\ 0 < sigma.

End Formula.

(** ** The module-level script: inputs and the sweep over spot prices *)

(** The values of the six sidebar widgets. *)
Record sidebar : Type := {
  interest_rate : R;
  spot_price : R;
  strike_price : R;
  days_to_maturity : Z;
  volatility : R;
  option_type_selection : string
}.

(** [maturity_time = days_to_maturity / 365] *)
Definition maturity_time (w : sidebar) : float64 :=
  (Fin (IZR (days_to_maturity w)) / Fin 365)%np.

(** [option_type = "call" if option_type_selection == "Call" else "put"] *)
Definition option_type (w : sidebar) : string :=
  if String.eqb (option_type_selection w) "Call" then "call" else "put".

(** The least integer not below [x]. *)
Definition ceil (x : R) : Z := (- Int_part (- x))%Z.

(** [np.arange(0, stop)] for a float [stop]: the floats [0, 1, ...],
    [ceil(stop)] of them, none when [stop <= 0]. *)
Definition np_arange (stop : R) : list float64 :=
  map (fun i : nat => Fin (INR i)) (seq 0 (Z.to_nat (ceil stop))).

(** [spot_prices_range = np.arange(0, spot_price + 50 + 1)] *)
Definition spot_prices_range (w : sidebar) : list float64 :=
  np_arange (spot_price w + 50 + 1).

(** [[f(spot) for spot in xs]]: the calls run in order, each on the
    interface state its predecessor left. *)
Fixpoint comprehension (f : float64 -> streamlit -> pyval * streamlit)
    (xs : list float64) (ui : streamlit) : list pyval * streamlit :=
  match xs with
  | [] => ([], ui)
  | x :: rest =>
      let (v, ui1) := f x ui in
      let (vs, ui2) := comprehension f rest ui1 in
      (v :: vs, ui2)
  end.

Section Sweep.

Variable Phi : R -> R.
Variable w : sidebar.

Definition option_prices : streamlit -> list pyval * streamlit :=
  comprehension
    (fun spot => compute_option_price Phi spot (Fin (strike_price w))
                   (Fin (interest_rate w)) (maturity_time w)
                   (Fin (volatility w)) (option_type w))
    (spot_prices_range w).

Definition deltas : streamlit -> list pyval * streamlit :=
  comprehension
    (fun spot => compute_delta Phi spot (Fin (strike_price w))
                   (Fin (interest_rate w)) (maturity_time w)
                   (Fin (volatility w)) (option_type w))
    (spot_prices_range w).

Definition gammas : streamlit -> list pyval * streamlit :=
  comprehension
    (fun spot => compute_gamma spot (Fin (strike_price w))
                   (Fin (interest_rate w)) (maturity_time w)
                   (Fin (volatility w)))
    (spot_prices_range w).

Definition thetas : streamlit -> list pyval * streamlit :=
  comprehension
    (fun spot => compute_theta Phi spot (Fin (strike_price w))
                   (Fin (interest_rate w)) (maturity_time w)
                   (Fin (volatility w)) (option_type w))
    (spot_prices_range w).

Definition vegas : streamlit -> list pyval * streamlit :=
  comprehension
    (fun spot => compute_vega spot (Fin (strike_price w))
                   (Fin (interest_rate w)) (maturity_time w)
                   (Fin (volatility w)))
    (spot_prices_range w).

Definition rhos : streamlit -> list pyval * streamlit :=
  comprehension
    (fun spot => compute_rho Phi spot (Fin (strike_price w))
                   (Fin (interest_rate w)) (maturity_time w)
                   (Fin (volatility w)) (option_type w))
    (spot_prices_range w).

End Sweep.

(** The ranges the widgets enforce: [min_value] and [max_value] of each
    [st.sidebar.number_input]. *)
Definition in_widget_range (w : sidebar) : Prop :=
  0 <= interest_rate w <= 1 /\ 1 <= spot_price w /\ 1 <= strike_price w
  /\ (1 <= days_to_maturity w)%Z /\ 0 <= volatility w <= 1.

(** The sidebar as the script opens it: the [value] of each widget. *)
Definition defaults : sidebar := {|
  interest_rate := 0.03;
  spot_price := 30;
  strike_price := 50;
  days_to_maturity := 250;
  volatility := 0.3;
  option_type_selection := "Call"
|}.

(** The default sidebar with the volatility moved to its minimum. *)
Definition zero_volatility : sidebar := {|
  interest_rate := 0.03;
  spot_price := 30;
  strike_price := 50;
  days_to_maturity := 250;
  volatility := 0;
  option_type_selection := "Call"
|}.

(** The sidebar with its default values, the spot price moved to 30.5. *)
Definition half_spot : sidebar := {|
  interest_rate := 0.03;
  spot_price := 30.5;
  strike_price := 50;
  days_to_maturity := 250;
  volatility := 0.3;
  option_type_selection := "Call"
|}.

(** ** A distribution function for closed statements *)

(** The logistic distribution function.  Like the normal one it lies
    strictly between 0 and 1, is non-decreasing and satisfies
    [F(-x) = 1 - F(x)]; it stands for [Phi] where a statement without
    variables needs a function with the assumed properties. *)
Definition logistic (x : R) : R := / (1 + exp (- x)).

(** ** Facts about the float model *)

Lemma Rcompare_pos (x : R) : 0 < x -> Rcompare x 0 = Gt.
Proof.
  intros Hx. destruct (Rcompare_spec x 0); trivial; lra.
Qed.

Lemma Rcompare_neg (x : R) : x < 0 -> Rcompare x 0 = Lt.
Proof.
  intros Hx. destruct (Rcompare_spec x 0); trivial; lra.
Qed.

Lemma Rcompare_zero : Rcompare 0 0 = Eq.
Proof.
  destruct (Rcompare_spec 0 0); trivial; lra.
Qed.

Lemma div_fin (x y : R) : y <> 0 -> (Fin x / Fin y)%np = Fin (x / y).
Proof.
  intros Hy. simpl. destruct (Rcompare_spec y 0); trivial; contradiction.
Qed.

Lemma sqrt_fin (x : R) : 0 <= x -> Np.sqrt (Fin x) = Fin (sqrt x).
Proof.
  intros Hx. simpl. destruct (Rcompare_spec x 0); trivial; lra.
Qed.

Lemma log_fin (x : R) : 0 < x -> Np.log (Fin x) = Fin (ln x).
Proof.
  intros Hx. simpl. now rewrite Rcompare_pos.
Qed.

Lemma vol_sqrt_pos (T sigma : R) : 0 < T -> 0 < sigma -> 0 < sigma * sqrt T.
Proof.
  intros HT Hs. apply Rmult_lt_0_compat; trivial. now apply sqrt_lt_R0.
Qed.

(** On a valid parameter set the [d1] expression shared by the functions
    is the finite number of the specification. *)
Lemma d1_fin (S K r T sigma : R) :
  0 < S -> 0 < K -> 0 < T -> 0 < sigma ->
  ((Np.log (Fin S / Fin K)
    + (Fin r + Np.square (Fin sigma) / Fin 2) * Fin T)
   / (Fin sigma * Np.sqrt (Fin T)))%np
  = Fin (Formula.d1 S K r T sigma).
Proof.
  intros HS HK HT Hs.
  assert (Hv := vol_sqrt_pos T sigma HT Hs).
  rewrite (div_fin S K) by lra.
  rewrite log_fin by (apply Rdiv_lt_0_compat; lra).
  rewrite sqrt_fin by lra.
  unfold Np.square. cbn [Np.mul Np.add].
  rewrite (div_fin _ 2) by lra. cbn [Np.mul Np.add].
  rewrite div_fin by lra.
  assert (Hq := sqrt_lt_R0 T HT).
  unfold Formula.d1. f_equal. field. lra.
Qed.

Lemma d2_direct_fin (S K r T sigma : R) :
  0 < S -> 0 < K -> 0 < T -> 0 < sigma ->
  ((Np.log (Fin S / Fin K)
    + (Fin r - Np.square (Fin sigma) / Fin 2) * Fin T)
   / (Fin sigma * Np.sqrt (Fin T)))%np
  = Fin (Formula.d2_direct S K r T sigma).
Proof.
  intros HS HK HT Hs.
  assert (Hv := vol_sqrt_pos T sigma HT Hs).
  rewrite (div_fin S K) by lra.
  rewrite log_fin by (apply Rdiv_lt_0_compat; lra).
  rewrite sqrt_fin by lra.
  unfold Np.square, Np.sub. cbn [Np.mul Np.add Np.neg].
  rewrite (div_fin _ 2) by lra. cbn [Np.mul Np.add Np.neg].
  rewrite div_fin by lra.
  assert (Hq := sqrt_lt_R0 T HT).
  unfold Formula.d2_direct. f_equal. field. lra.
Qed.

Lemma d2_fin (S K r T sigma : R) :
  0 <= T ->
  (Fin (Formula.d1 S K r T sigma) - Fin sigma * Np.sqrt (Fin T))%np
  = Fin (Formula.d2 S K r T sigma).
Proof.
  intros HT. rewrite sqrt_fin by lra. reflexivity.
Qed.

(** ** The price and the Greeks on valid parameter sets *)

(** Rewrites the shared intermediates of a call on finite arguments into
    the numbers of [Formula] and evaluates the remaining float operations. *)
Ltac intermediates :=
  rewrite ?d1_fin, ?d2_direct_fin by lra;
  rewrite ?d2_fin by lra;
  rewrite ?sqrt_fin by lra;
  cbn [by_option_type String.eqb Ascii.eqb Bool.eqb load try_return
       Norm.cdf Norm.pdf Np.neg Np.exp Np.mul Np.add Np.sub].

Section Valid.

Variable Phi : R -> R.

(** C1: on a valid parameter set the price function returns
    [S*Phi(d1) - K*exp(-rT)*Phi(d2)] for a call and
    [K*exp(-rT)*Phi(-d2) - S*Phi(-d1)] for a put, as a finite float and
    without reporting anything. *)
Theorem compute_option_price_formula (S K r T sigma : R) (ui : streamlit) :
  Formula.valid S K r T sigma ->
  let d1 := Formula.d1 S K r T sigma in
  let d2 := Formula.d2 S K r T sigma in
  compute_option_price Phi (Fin S) (Fin K) (Fin r) (Fin T) (Fin sigma)
    "call" ui
  = (PyFloat (Fin (S * Phi d1 - K * exp (- (r * T)) * Phi d2)), ui)
  /\
  compute_option_price Phi (Fin S) (Fin K) (Fin r) (Fin T) (Fin sigma)
    "put" ui
  = (PyFloat (Fin (K * exp (- (r * T)) * Phi (- d2) - S * Phi (- d1))), ui).
Proof.
  intros (HS & HK & Hr & HT & Hs) d1 d2.
  unfold compute_option_price. intermediates.
  replace (- r * T) with (- (r * T)) by ring.
  split; reflexivity.
Qed.

(** C4: on a valid parameter set theta is the annualized theta divided
    by 365, for a call and for a put. *)
Theorem compute_theta_formula (S K r T sigma : R) (ui : streamlit) :
  Formula.valid S K r T sigma ->
  let d1 := Formula.d1 S K r T sigma in
  let d2 := Formula.d2 S K r T sigma in
  compute_theta Phi (Fin S) (Fin K) (Fin r) (Fin T) (Fin sigma) "call" ui
  = (PyFloat (Fin ((- S * Norm.density d1 * sigma / (2 * sqrt T)
                    - r * K * exp (- (r * T)) * Phi d2) / 365)), ui)
  /\
  compute_theta Phi (Fin S) (Fin K) (Fin r) (Fin T) (Fin sigma) "put" ui
  = (PyFloat (Fin ((- S * Norm.density d1 * sigma / (2 * sqrt T)
                    + r * K * exp (- (r * T)) * Phi (- d2)) / 365)), ui).
Proof.
  intros (HS & HK & Hr & HT & Hs) d1 d2.
  assert (Hq := sqrt_lt_R0 T HT).
  unfold compute_theta. intermediates.
  rewrite (div_fin _ (2 * sqrt T)) by lra.
  cbn [Np.add Np.sub Np.neg Np.mul].
  rewrite !(div_fin _ 365) by lra.
  replace (- r * T) with (- (r * T)) by ring.
  subst d1 d2.
  split; (apply (f_equal (fun x => (PyFloat (Fin x), ui))); field; lra).
Qed.

(** The two ways of writing [d2] agree wherever the volatility and the
    maturity are positive. *)
Lemma d2_direct_eq (S K r T sigma : R) :
  0 < T -> 0 < sigma ->
  Formula.d2_direct S K r T sigma = Formula.d2 S K r T sigma.
Proof.
  intros HT Hs.
  assert (Hq := sqrt_lt_R0 T HT).
  assert (HTq : sqrt T * sqrt T = T) by (apply sqrt_sqrt; lra).
  unfold Formula.d2, Formula.d2_direct, Formula.d1.
  set (q := sqrt T) in *. clearbody q. subst T.
  field. lra.
Qed.


(** C5: the [d2] that rho computes through [r - sigma^2/2] is the [d2]
    that price and theta compute as [d1 - sigma*sqrt(T)], so rho is the
    rho formula at either of them. *)
Theorem compute_rho_d2_equivalence (S K r T sigma : R) (ui : streamlit) :
  Formula.valid S K r T sigma ->
  let d2 := Formula.d1 S K r T sigma - sigma * sqrt T in
  Formula.d2_direct S K r T sigma = d2
  /\
  compute_rho Phi (Fin S) (Fin K) (Fin r) (Fin T) (Fin sigma) "call" ui
  = (PyFloat (Fin (0.01 * K * T * exp (- (r * T)) * Phi d2)), ui)
  /\
  compute_rho Phi (Fin S) (Fin K) (Fin r) (Fin T) (Fin sigma) "put" ui
  = (PyFloat (Fin (- 0.01 * K * T * exp (- (r * T)) * Phi (- d2))), ui).
Proof.
  intros (HS & HK & Hr & HT & Hs) d2.
  assert (E : Formula.d2_direct S K r T sigma = d2)
    by now apply d2_direct_eq.
  split; [exact E |].
  unfold compute_rho. intermediates. rewrite E.
  replace (- r * T) with (- (r * T)) by ring.
  split; reflexivity.
Qed.

End Valid.

Section NormalLaws.

Variable Phi : R -> R.

(** The facts about the standard normal distribution function that the
    relational properties rest on. *)
Hypothesis Phi_symmetric : forall x : R, Phi (- x) = 1 - Phi x.
Hypothesis Phi_range : forall x : R, 0 < Phi x < 1.
Hypothesis Phi_monotone : forall x y : R, x <= y -> Phi x <= Phi y.

(** C3: put-call parity.  On a valid parameter set the call price minus
    the put price is [S - K*exp(-rT)]. *)
Theorem put_call_parity (S K r T sigma : R) (ui : streamlit) :
  Formula.valid S K r T sigma ->
  exists call put : R,
    compute_option_price Phi (Fin S) (Fin K) (Fin r) (Fin T) (Fin sigma)
      "call" ui = (PyFloat (Fin call), ui)
    /\ compute_option_price Phi (Fin S) (Fin K) (Fin r) (Fin T) (Fin sigma)
         "put" ui = (PyFloat (Fin put), ui)
    /\ call - put = S - K * exp (- (r * T)).
Proof.
  intros (HS & HK & Hr & HT & Hs).
  unfold compute_option_price. intermediates.
  eexists; eexists. split; [reflexivity |]. split; [reflexivity |].
  rewrite !Phi_symmetric. replace (- r * T) with (- (r * T)) by ring.
  ring.
Qed.


(** [d1] does not decrease when the spot price grows. *)
Lemma d1_monotone (s1 s2 K r T sigma : R) :
  0 < K -> 0 < T -> 0 < sigma -> 0 < s1 <= s2 ->
  Formula.d1 s1 K r T sigma <= Formula.d1 s2 K r T sigma.
Proof.
  intros HK HT Hs [H1 H12].
  assert (Hv := vol_sqrt_pos T sigma HT Hs).
  assert (Hln : ln (s1 / K) <= ln (s2 / K)).
  { destruct H12 as [Hlt | ->]; [| lra].
    left. apply ln_increasing.
    - apply Rdiv_lt_0_compat; lra.
    - apply Rmult_lt_compat_r; [apply Rinv_0_lt_compat |]; lra. }
  unfold Formula.d1.
  apply Rmult_le_compat_r; [left; now apply Rinv_0_lt_compat | lra].
Qed.

(** C9: with strike, rate, maturity and volatility valid and fixed, the
    call delta does not decrease from a positive spot price to a larger
    one. *)
Theorem call_delta_monotone (s1 s2 K r T sigma : R) (ui1 ui2 : streamlit) :
  0 < K -> 0 <= r -> 0 < T -> 0 < sigma ->
  0 < s1 <= s2 ->
  exists delta1 delta2 : R,
    compute_delta Phi (Fin s1) (Fin K) (Fin r) (Fin T) (Fin sigma)
      "call" ui1 = (PyFloat (Fin delta1), ui1)
    /\ compute_delta Phi (Fin s2) (Fin K) (Fin r) (Fin T) (Fin sigma)
         "call" ui2 = (PyFloat (Fin delta2), ui2)
    /\ delta1 <= delta2.
Proof.
  intros HK Hr HT Hs H12.
  unfold compute_delta. intermediates.
  eexists; eexists. split; [reflexivity |]. split; [reflexivity |].
  apply Phi_monotone. now apply d1_monotone.
Qed.

End NormalLaws.

(** ** The option type and the interface state *)

Lemma by_option_type_other (option_type : string) (e1 e2 : float64) :
  option_type <> "call"%string -> option_type <> "put"%string ->
  by_option_type option_type e1 e2 = None.
Proof.
  intros Hc Hp. unfold by_option_type.
  apply String.eqb_neq in Hc. apply String.eqb_neq in Hp.
  now rewrite Hc, Hp.
Qed.

Section Frame.

Variable Phi : R -> R.
Variables spot strike rate maturity vol : float64.

Lemma compute_gamma_pure :
  pure_call (compute_gamma spot strike rate maturity vol).
Proof. eexists. intros ui. reflexivity. Qed.

Lemma compute_vega_pure :
  pure_call (compute_vega spot strike rate maturity vol).
Proof. eexists. intros ui. reflexivity. Qed.

Variable option_type : string.
Hypothesis known : option_type = "call"%string \/ option_type = "put"%string.

Lemma compute_option_price_pure :
  pure_call (compute_option_price Phi spot strike rate maturity vol
               option_type).
Proof.
  unfold pure_call, compute_option_price.
  destruct known as [-> | ->]; eexists; intros ui; reflexivity.
Qed.

Lemma compute_delta_pure :
  pure_call (compute_delta Phi spot strike rate maturity vol option_type).
Proof.
  unfold pure_call, compute_delta.
  destruct known as [-> | ->]; eexists; intros ui; reflexivity.
Qed.

Lemma compute_theta_pure :
  pure_call (compute_theta Phi spot strike rate maturity vol option_type).
Proof.
  unfold pure_call, compute_theta.
  destruct known as [-> | ->]; eexists; intros ui; reflexivity.
Qed.

Lemma compute_rho_pure :
  pure_call (compute_rho Phi spot strike rate maturity vol option_type).
Proof.
  unfold pure_call, compute_rho.
  destruct known as [-> | ->]; eexists; intros ui; reflexivity.
Qed.

End Frame.

(** C10: with an option type other than ["call"] and ["put"] each of the
    four functions that take one returns [None]; the unbound result
    variable is caught by the handler, which reports the fixed message. *)
Theorem unknown_option_type_returns_none
    (Phi : R -> R) (spot strike rate maturity vol : float64)
    (option_type : string) (ui : streamlit) :
  option_type <> "call"%string -> option_type <> "put"%string ->
  let reported := st_sidebar_error ensure_msg ui in
  compute_option_price Phi spot strike rate maturity vol option_type ui
  = (PyNone, reported)
  /\ compute_delta Phi spot strike rate maturity vol option_type ui
     = (PyNone, reported)
  /\ compute_theta Phi spot strike rate maturity vol option_type ui
     = (PyNone, reported)
  /\ compute_rho Phi spot strike rate maturity vol option_type ui
     = (PyNone, reported).
Proof.
  intros Hc Hp reported.
  unfold compute_option_price, compute_delta, compute_theta, compute_rho.
  rewrite !by_option_type_other by assumption.
  repeat split; reflexivity.
Qed.


(** ** A zero denominator *)

Lemma Rcompare_eq0 (x : R) : x = 0 -> Rcompare x 0 = Eq.
Proof.
  intros ->. apply Rcompare_zero.
Qed.

Lemma ln_neg (x : R) : 0 < x < 1 -> ln x < 0.
Proof.
  intros [H0 H1]. rewrite <- ln_1. now apply ln_increasing.
Qed.

Lemma ln_pos (x : R) : 1 < x -> 0 < ln x.
Proof.
  intros H1. rewrite <- ln_1. apply ln_increasing; lra.
Qed.




(** At zero maturity [d1] is minus infinity below the strike, plus
    infinity above it and NaN at it. *)
Lemma d1_at_expiry (S K r sigma : R) :
  0 < S -> 0 < K -> 0 < sigma ->
  ((Np.log (Fin S / Fin K)
    + (Fin r + Np.square (Fin sigma) / Fin 2) * Fin 0)
   / (Fin sigma * Np.sqrt (Fin 0)))%np
  = match Rcompare S K with Lt => NInf | Gt => PInf | Eq => NaN end.
Proof.
  intros HS HK Hs.
  rewrite (div_fin S K) by lra.
  rewrite log_fin by (apply Rdiv_lt_0_compat; lra).
  rewrite sqrt_fin, sqrt_0 by lra.
  unfold Np.square. cbn [Np.mul Np.add].
  rewrite (div_fin _ 2) by lra. cbn [Np.mul Np.add Np.div].
  rewrite (Rcompare_eq0 (sigma * 0)) by ring.
  replace (ln (S / K) + (r + sigma * sigma / 2) * 0) with (ln (S / K))
    by ring.
  assert (HK' : 0 < / K) by now apply Rinv_0_lt_compat.
  destruct (Rcompare_spec S K) as [-> | Hlt | Hgt].
  - rewrite Rcompare_eq0; [reflexivity |].
    unfold Rdiv. rewrite Rinv_r by lra. apply ln_1.
  - rewrite Rcompare_neg; [reflexivity |].
    apply ln_neg. split; [apply Rdiv_lt_0_compat; lra |].
    apply (Rmult_lt_reg_r K); [lra |]. unfold Rdiv.
    rewrite Rmult_assoc, Rinv_l by lra. lra.
  - rewrite Rcompare_pos; [reflexivity |].
    apply ln_pos.
    apply (Rmult_lt_reg_r K); [lra |]. unfold Rdiv.
    rewrite Rmult_assoc, Rinv_l by lra. lra.
Qed.

Lemma Rcompare_lt (x y : R) : x < y -> Rcompare x y = Lt.
Proof.
  intros H. destruct (Rcompare_spec x y); trivial; lra.
Qed.

Lemma Rcompare_gt (x y : R) : y < x -> Rcompare x y = Gt.
Proof.
  intros H. destruct (Rcompare_spec x y); trivial; lra.
Qed.



(** ** Properties of the logistic function *)

Lemma logistic_symmetric (x : R) : logistic (- x) = 1 - logistic x.
Proof.
  unfold logistic. rewrite Ropp_involutive, exp_Ropp.
  pose proof (exp_pos x). field. split; lra.
Qed.

Lemma logistic_range (x : R) : 0 < logistic x < 1.
Proof.
  unfold logistic. pose proof (exp_pos (- x)) as He.
  split.
  - apply Rinv_0_lt_compat. lra.
  - rewrite <- Rinv_1 at 2. apply Rinv_lt_contravar; lra.
Qed.

Lemma logistic_monotone (x y : R) : x <= y -> logistic x <= logistic y.
Proof.
  intros Hxy. unfold logistic.
  pose proof (exp_pos (- x)). pose proof (exp_pos (- y)).
  assert (exp (- y) <= exp (- x)).
  { destruct Hxy as [Hlt | ->]; [| lra].
    left. apply exp_increasing. lra. }
  apply Rinv_le_contravar; lra.
Qed.

(** ** The swept range *)

Lemma ceil_spec (x : R) : IZR (ceil x) - 1 < x <= IZR (ceil x).
Proof.
  unfold ceil, Int_part.
  destruct (archimed (- x)) as [Hup Hlow].
  rewrite opp_IZR, minus_IZR. lra.
Qed.

Lemma ceil_unique (x : R) (z : Z) : IZR z - 1 < x <= IZR z -> ceil x = z.
Proof.
  intros [Hlo Hhi]. destruct (ceil_spec x) as [Clo Chi].
  assert (H1 : (z - 1 < ceil x)%Z).
  { apply lt_IZR. rewrite minus_IZR. lra. }
  assert (H2 : (ceil x - 1 < z)%Z).
  { apply lt_IZR. rewrite minus_IZR. lra. }
  lia.
Qed.

(** The naturals below [ceil(x)] are the naturals below [x]. *)
Lemma below_ceil (x : R) (n : nat) :
  (n < Z.to_nat (ceil x))%nat <-> INR n < x.
Proof.
  destruct (ceil_spec x) as [Clo Chi].
  rewrite INR_IZR_INZ. split.
  - intros Hn.
    assert (Hz : (Z.of_nat n + 1 <= ceil x)%Z) by lia.
    apply IZR_le in Hz. rewrite plus_IZR in Hz. lra.
  - intros Hn.
    assert (Hz : (Z.of_nat n < ceil x)%Z) by (apply lt_IZR; lra).
    lia.
Qed.

Lemma np_arange_length (stop : R) :
  List.length (np_arange stop) = Z.to_nat (ceil stop).
Proof.
  unfold np_arange. now rewrite length_map, length_seq.
Qed.

(** A comprehension over calls that leave the interface state alone
    is a plain map. *)
Lemma comprehension_pure
    (f : float64 -> streamlit -> pyval * streamlit) (xs : list float64)
    (ui : streamlit) :
  (forall x, pure_call (f x)) ->
  comprehension f xs ui = (map (fun x => fst (f x ui)) xs, ui).
Proof.
  intros Hf. induction xs as [| x rest IH]; [reflexivity |].
  cbn [comprehension map]. destruct (Hf x) as [v Hv].
  rewrite Hv, IH. reflexivity.
Qed.

Lemma option_type_known (w : sidebar) :
  option_type w = "call"%string \/ option_type w = "put"%string.
Proof.
  unfold option_type.
  destruct (String.eqb (option_type_selection w) "Call"); auto.
Qed.

(** C7, as the code has it: the swept spot prices are the floats
    [0, 1, ..., N-1], in that order, where the naturals below [N] are
    the naturals below [spot_price + 51]; for a whole spot price [s]
    these are [0, ..., s + 50].  Each of the six series holds, in the
    order of the range, the value of its function at each spot price with
    the other arguments fixed, and the interface state is left alone. *)
Theorem sweep_series (Phi : R -> R) (w : sidebar) (ui : streamlit) :
  let K := Fin (strike_price w) in
  let r := Fin (interest_rate w) in
  let T := maturity_time w in
  let sigma := Fin (volatility w) in
  let ot := option_type w in
  let over f := (map (fun spot => fst (f spot ui)) (spot_prices_range w), ui) in
  (exists N : nat,
     spot_prices_range w = map (fun i : nat => Fin (INR i)) (seq 0 N)
     /\ (forall n : nat, (n < N)%nat <-> INR n < spot_price w + 51)
     /\ (forall s : nat, spot_price w = INR s -> N = (s + 51)%nat))
  /\ option_prices Phi w ui
     = over (fun spot => compute_option_price Phi spot K r T sigma ot)
  /\ deltas Phi w ui
     = over (fun spot => compute_delta Phi spot K r T sigma ot)
  /\ gammas w ui = over (fun spot => compute_gamma spot K r T sigma)
  /\ thetas Phi w ui
     = over (fun spot => compute_theta Phi spot K r T sigma ot)
  /\ vegas w ui = over (fun spot => compute_vega spot K r T sigma)
  /\ rhos Phi w ui
     = over (fun spot => compute_rho Phi spot K r T sigma ot).
Proof.
  intros K r T sigma ot over.
  pose proof (option_type_known w) as known.
  split.
  - exists (Z.to_nat (ceil (spot_price w + 50 + 1))).
    split; [reflexivity |].
    assert (Hb : forall n : nat,
               (n < Z.to_nat (ceil (spot_price w + 50 + 1)))%nat
               <-> INR n < spot_price w + 51).
    { intros n. rewrite below_ceil. split; lra. }
    split; [exact Hb |].
    intros s Hs.
    assert (H1 : (s + 50 < Z.to_nat (ceil (spot_price w + 50 + 1)))%nat).
    { apply Hb. rewrite plus_INR, Hs. simpl (INR 50). lra. }
    assert (H2 : ~ (s + 51 < Z.to_nat (ceil (spot_price w + 50 + 1)))%nat).
    { intros H. apply Hb in H. rewrite plus_INR, Hs in H.
      simpl (INR 51) in H. lra. }
    lia.
  - unfold option_prices, deltas, gammas, thetas, vegas, rhos, over.
    repeat split; apply comprehension_pure; intros spot.
    + now apply compute_option_price_pure.
    + now apply compute_delta_pure.
    + apply compute_gamma_pure.
    + now apply compute_theta_pure.
    + apply compute_vega_pure.
    + now apply compute_rho_pure.
Qed.

(** C7 fails as stated: for the spot price 30.5 the swept range holds
    82 values and ends at 81, which is above [30.5 + 50]. *)
Lemma sweep_overshoots_fractional_spot :
  List.length (spot_prices_range half_spot) = 82%nat
  /\ In (Fin 81) (spot_prices_range half_spot)
  /\ 81 > spot_price half_spot + 50.
Proof.
  assert (E : ceil (spot_price half_spot + 50 + 1) = 82%Z).
  { apply ceil_unique. simpl. lra. }
  unfold spot_prices_range, np_arange. rewrite E.
  split; [now rewrite length_map, length_seq |].
  split; [| simpl; lra].
  apply in_map_iff. exists 81%nat. split.
  - rewrite INR_IZR_INZ. reflexivity.
  - apply in_seq. lia.
Qed.

(** ** The theorems at the default inputs of the sidebar *)

Lemma default_valid : Formula.valid 30 50 0.03 (250 / 365) 0.3.
Proof.
  unfold Formula.valid. lra.
Defined.

Lemma compute_option_price_formula_default :
  let d1 := Formula.d1 30 50 0.03 (250 / 365) 0.3 in
  let d2 := Formula.d2 30 50 0.03 (250 / 365) 0.3 in
  compute_option_price logistic (Fin 30) (Fin 50) (Fin 0.03)
    (Fin (250 / 365)) (Fin 0.3) "call" fresh
  = (PyFloat (Fin (30 * logistic d1
                   - 50 * exp (- (0.03 * (250 / 365))) * logistic d2)),
     fresh)
  /\
  compute_option_price logistic (Fin 30) (Fin 50) (Fin 0.03)
    (Fin (250 / 365)) (Fin 0.3) "put" fresh
  = (PyFloat (Fin (50 * exp (- (0.03 * (250 / 365))) * logistic (- d2)
                   - 30 * logistic (- d1))),
     fresh).
Proof.
  exact (compute_option_price_formula logistic 30 50 0.03 (250 / 365) 0.3
           fresh default_valid).
Defined.

Lemma compute_theta_formula_default :
  let d1 := Formula.d1 30 50 0.03 (250 / 365) 0.3 in
  let d2 := Formula.d2 30 50 0.03 (250 / 365) 0.3 in
  compute_theta logistic (Fin 30) (Fin 50) (Fin 0.03) (Fin (250 / 365))
    (Fin 0.3) "call" fresh
  = (PyFloat (Fin ((- 30 * Norm.density d1 * 0.3 / (2 * sqrt (250 / 365))
                    - 0.03 * 50 * exp (- (0.03 * (250 / 365)))
                      * logistic d2) / 365)),
     fresh)
  /\
  compute_theta logistic (Fin 30) (Fin 50) (Fin 0.03) (Fin (250 / 365))
    (Fin 0.3) "put" fresh
  = (PyFloat (Fin ((- 30 * Norm.density d1 * 0.3 / (2 * sqrt (250 / 365))
                    + 0.03 * 50 * exp (- (0.03 * (250 / 365)))
                      * logistic (- d2)) / 365)),
     fresh).
Proof.
  exact (compute_theta_formula logistic 30 50 0.03 (250 / 365) 0.3
           fresh default_valid).
Defined.

Lemma compute_rho_d2_equivalence_default :
  let d2 := Formula.d1 30 50 0.03 (250 / 365) 0.3
            - 0.3 * sqrt (250 / 365) in
  Formula.d2_direct 30 50 0.03 (250 / 365) 0.3 = d2
  /\
  compute_rho logistic (Fin 30) (Fin 50) (Fin 0.03) (Fin (250 / 365))
    (Fin 0.3) "call" fresh
  = (PyFloat (Fin (0.01 * 50 * (250 / 365)
                   * exp (- (0.03 * (250 / 365))) * logistic d2)),
     fresh)
  /\
  compute_rho logistic (Fin 30) (Fin 50) (Fin 0.03) (Fin (250 / 365))
    (Fin 0.3) "put" fresh
  = (PyFloat (Fin (- 0.01 * 50 * (250 / 365)
                   * exp (- (0.03 * (250 / 365))) * logistic (- d2))),
     fresh).
Proof.
  exact (compute_rho_d2_equivalence logistic 30 50 0.03 (250 / 365) 0.3
           fresh default_valid).
Defined.

Lemma put_call_parity_default :
  exists call put : R,
    compute_option_price logistic (Fin 30) (Fin 50) (Fin 0.03)
      (Fin (250 / 365)) (Fin 0.3) "call" fresh = (PyFloat (Fin call), fresh)
    /\ compute_option_price logistic (Fin 30) (Fin 50) (Fin 0.03)
         (Fin (250 / 365)) (Fin 0.3) "put" fresh = (PyFloat (Fin put), fresh)
    /\ call - put = 30 - 50 * exp (- (0.03 * (250 / 365))).
Proof.
  exact (put_call_parity logistic logistic_symmetric 30 50 0.03 (250 / 365)
           0.3 fresh default_valid).
Defined.


Lemma call_delta_monotone_default :
  exists delta1 delta2 : R,
    compute_delta logistic (Fin 30) (Fin 50) (Fin 0.03) (Fin (250 / 365))
      (Fin 0.3) "call" fresh = (PyFloat (Fin delta1), fresh)
    /\ compute_delta logistic (Fin 31) (Fin 50) (Fin 0.03) (Fin (250 / 365))
         (Fin 0.3) "call" fresh = (PyFloat (Fin delta2), fresh)
    /\ delta1 <= delta2.
Proof.
  apply (call_delta_monotone logistic logistic_monotone 30 31 50 0.03
           (250 / 365) 0.3 fresh fresh); lra.
Defined.

Lemma unknown_option_type_returns_none_straddle :
  let reported := st_sidebar_error ensure_msg fresh in
  compute_option_price logistic (Fin 30) (Fin 50) (Fin 0.03)
    (Fin (250 / 365)) (Fin 0.3) "straddle" fresh = (PyNone, reported)
  /\ compute_delta logistic (Fin 30) (Fin 50) (Fin 0.03) (Fin (250 / 365))
       (Fin 0.3) "straddle" fresh = (PyNone, reported)
  /\ compute_theta logistic (Fin 30) (Fin 50) (Fin 0.03) (Fin (250 / 365))
       (Fin 0.3) "straddle" fresh = (PyNone, reported)
  /\ compute_rho logistic (Fin 30) (Fin 50) (Fin 0.03) (Fin (250 / 365))
       (Fin 0.3) "straddle" fresh = (PyNone, reported).
Proof.
  apply (unknown_option_type_returns_none logistic (Fin 30) (Fin 50)
           (Fin 0.03) (Fin (250 / 365)) (Fin 0.3) "straddle" fresh);
    discriminate.
Defined.



(** ** Further properties of the Greeks on valid parameter sets *)


Section Greeks.

Variable Phi : R -> R.
Variables S K r T sigma : R.
Hypothesis Hvalid : Formula.valid S K r T sigma.

Let d1 := Formula.d1 S K r T sigma.
Let d2 := Formula.d2 S K r T sigma.



Hypothesis Phi_symmetric : forall x : R, Phi (- x) = 1 - Phi x.
Hypothesis Phi_range : forall x : R, 0 < Phi x < 1.

(** X3: the call delta is [Phi(d1)] and the put delta is the call delta
    minus one. *)
Theorem put_delta_is_call_delta_minus_one (ui : streamlit) :
  compute_delta Phi (Fin S) (Fin K) (Fin r) (Fin T) (Fin sigma) "call" ui
  = (PyFloat (Fin (Phi d1)), ui)
  /\ compute_delta Phi (Fin S) (Fin K) (Fin r) (Fin T) (Fin sigma) "put" ui
     = (PyFloat (Fin (Phi d1 - 1)), ui).
Proof.
  destruct Hvalid as (HS & HK & Hr & HT & Hs).
  unfold compute_delta. intermediates.
  split; [reflexivity |].
  rewrite Phi_symmetric.
  apply (f_equal (fun x => (PyFloat (Fin x), ui))). fold d1. ring.
Qed.

(** X4: at the money with a zero rate ([S = K], [r = 0]) the call and the
    put have the same price. *)
Theorem at_the_money_symmetry (ui : streamlit) :
  S = K -> r = 0 ->
  exists price : R,
    compute_option_price Phi (Fin S) (Fin K) (Fin r) (Fin T) (Fin sigma)
      "call" ui = (PyFloat (Fin price), ui)
    /\ compute_option_price Phi (Fin S) (Fin K) (Fin r) (Fin T) (Fin sigma)
         "put" ui = (PyFloat (Fin price), ui).
Proof.
  intros HSK Hr0.
  destruct Hvalid as (HS & HK & Hr & HT & Hs).
  unfold compute_option_price. intermediates.
  eexists. split; [reflexivity |].
  apply (f_equal (fun x => (PyFloat (Fin x), ui))).
  rewrite !Phi_symmetric. subst K r.
  replace (- 0 * T) with 0 by ring. rewrite exp_0. ring.
Qed.

(** X5: the call price is below the spot price and the put price below the
    strike. *)
Theorem price_upper_bounds (ui : streamlit) :
  exists call put : R,
    compute_option_price Phi (Fin S) (Fin K) (Fin r) (Fin T) (Fin sigma)
      "call" ui = (PyFloat (Fin call), ui)
    /\ compute_option_price Phi (Fin S) (Fin K) (Fin r) (Fin T) (Fin sigma)
         "put" ui = (PyFloat (Fin put), ui)
    /\ call < S /\ put < K.
Proof.
  destruct Hvalid as (HS & HK & Hr & HT & Hs).
  unfold compute_option_price. intermediates.
  eexists; eexists. split; [reflexivity |]. split; [reflexivity |].
  fold d1 d2.
  pose proof (Phi_range d1) as P1. pose proof (Phi_range d2) as P2.
  pose proof (Phi_range (- d1)) as N1. pose proof (Phi_range (- d2)) as N2.
  pose proof (exp_pos (- r * T)) as He.
  assert (He1 : exp (- r * T) <= 1).
  { rewrite <- exp_0.
    assert (Hle : - r * T <= 0) by nra.
    destruct Hle as [Hlt | ->]; [left; now apply exp_increasing | right; reflexivity]. }
  set (e := exp (- r * T)) in *.
  assert (A1 : S * Phi d1 < S) by nra.
  assert (A2 : 0 < K * e) by now apply Rmult_lt_0_compat.
  assert (A3 : K * e <= K) by nra.
  assert (A4 : 0 < K * e * Phi d2) by (apply Rmult_lt_0_compat; lra).
  assert (A5 : K * e * Phi (- d2) < K * e) by nra.
  assert (A6 : 0 < S * Phi (- d1)) by (apply Rmult_lt_0_compat; lra).
  split; lra.
Qed.


(** X7: Theta of the put exceeds theta of the call by [r*K*exp(-rT)/365]. *)
Theorem theta_parity (ui : streamlit) :
  exists call put : R,
    compute_theta Phi (Fin S) (Fin K) (Fin r) (Fin T) (Fin sigma) "call" ui
    = (PyFloat (Fin call), ui)
    /\ compute_theta Phi (Fin S) (Fin K) (Fin r) (Fin T) (Fin sigma) "put" ui
       = (PyFloat (Fin put), ui)
    /\ put - call = r * K * exp (- (r * T)) / 365.
Proof.
  destruct Hvalid as (HS & HK & Hr & HT & Hs).
  assert (Hq := sqrt_lt_R0 T HT).
  unfold compute_theta. intermediates.
  rewrite (div_fin _ (2 * sqrt T)) by lra.
  cbn [Np.add Np.sub Np.neg Np.mul].
  rewrite !(div_fin _ 365) by lra.
  eexists; eexists. split; [reflexivity |]. split; [reflexivity |].
  rewrite Phi_symmetric. replace (- r * T) with (- (r * T)) by ring.
  field. lra.
Qed.


End Greeks.

(** ** Edge behaviour: expiry, a zero spot price, a zero volatility *)

(** Evaluates the float operations left once the intermediates are
    known infinities or NaN. *)
Ltac evaluate :=
  cbn [by_option_type String.eqb Ascii.eqb Bool.eqb load try_return
       Norm.cdf Norm.pdf Np.neg Np.exp Np.mul Np.add Np.sub Np.div
       Np.inf_times].

(** X9: at zero maturity the price is the payoff: [S - K] or zero for a
    call, [K - S] or zero for a put.  Exactly at the strike, [d1] is
    [0/0] and both prices are NaN. *)
Theorem price_at_expiry (Phi : R -> R) (S K r sigma : R) (ui : streamlit) :
  0 < S -> 0 < K -> 0 < sigma ->
  let price := compute_option_price Phi (Fin S) (Fin K) (Fin r) (Fin 0)
                 (Fin sigma) in
  (S < K -> price "call"%string ui = (PyFloat (Fin 0), ui)
            /\ price "put"%string ui = (PyFloat (Fin (K - S)), ui))
  /\ (K < S -> price "call"%string ui = (PyFloat (Fin (S - K)), ui)
               /\ price "put"%string ui = (PyFloat (Fin 0), ui))
  /\ (S = K -> price "call"%string ui = (PyFloat NaN, ui)
               /\ price "put"%string ui = (PyFloat NaN, ui)).
Proof.
  intros HS HK Hs price. unfold price, compute_option_price.
  rewrite d1_at_expiry by assumption.
  rewrite sqrt_fin, sqrt_0 by lra.
  assert (He : exp (- r * 0) = 1)
    by (replace (- r * 0) with 0 by ring; apply exp_0).
  split; [| split]; intros Hcmp.
  - rewrite Rcompare_lt by assumption. evaluate. rewrite He.
    split; apply (f_equal (fun x => (PyFloat (Fin x), ui))); ring.
  - rewrite Rcompare_gt by assumption. evaluate. rewrite He.
    split; apply (f_equal (fun x => (PyFloat (Fin x), ui))); ring.
  - subst K. destruct (Rcompare_spec S S); try lra.
    evaluate. split; reflexivity.
Qed.

(** With the spot price zero and the other arguments valid, [d1] and
    both forms of [d2] are minus infinity. *)
Lemma d1_spot_zero (K r T sigma : R) :
  0 < K -> 0 < T -> 0 < sigma ->
  ((Np.log (Fin 0 / Fin K)
    + (Fin r + Np.square (Fin sigma) / Fin 2) * Fin T)
   / (Fin sigma * Np.sqrt (Fin T)))%np = NInf.
Proof.
  intros HK HT Hs.
  assert (Hv := vol_sqrt_pos T sigma HT Hs).
  rewrite (div_fin 0 K) by lra.
  rewrite sqrt_fin by lra.
  unfold Np.square. cbn [Np.mul Np.add Np.log].
  rewrite (Rcompare_eq0 (0 / K)) by (unfold Rdiv; ring).
  rewrite (div_fin _ 2) by lra. cbn [Np.mul Np.add Np.div].
  now rewrite Rcompare_pos.
Qed.

(** X10: the first point of every sweep: at the spot price zero the call is
    worth nothing and has delta zero, the put is worth the discounted
    strike and has delta minus one, vega is zero, and gamma is [0/0],
    NaN. *)
Theorem spot_zero_values (Phi : R -> R) (K r T sigma : R) (ui : streamlit) :
  0 < K -> 0 < T -> 0 < sigma ->
  compute_option_price Phi (Fin 0) (Fin K) (Fin r) (Fin T) (Fin sigma)
    "call" ui = (PyFloat (Fin 0), ui)
  /\ compute_option_price Phi (Fin 0) (Fin K) (Fin r) (Fin T) (Fin sigma)
       "put" ui = (PyFloat (Fin (K * exp (- (r * T)))), ui)
  /\ compute_delta Phi (Fin 0) (Fin K) (Fin r) (Fin T) (Fin sigma)
       "call" ui = (PyFloat (Fin 0), ui)
  /\ compute_delta Phi (Fin 0) (Fin K) (Fin r) (Fin T) (Fin sigma)
       "put" ui = (PyFloat (Fin (- 1)), ui)
  /\ compute_vega (Fin 0) (Fin K) (Fin r) (Fin T) (Fin sigma) ui
     = (PyFloat (Fin 0), ui)
  /\ compute_gamma (Fin 0) (Fin K) (Fin r) (Fin T) (Fin sigma) ui
     = (PyFloat NaN, ui).
Proof.
  intros HK HT Hs.
  unfold compute_option_price, compute_delta, compute_vega, compute_gamma.
  rewrite !d1_spot_zero by assumption.
  rewrite !sqrt_fin by lra. evaluate.
  rewrite (Rcompare_eq0 (0 * sigma * sqrt T)) by ring.
  rewrite Rcompare_zero.
  replace (- r * T) with (- (r * T)) by ring.
  repeat split; apply (f_equal (fun x => (PyFloat (Fin x), ui))); ring.
Qed.

(** With a zero volatility gamma is NaN whatever the other finite
    arguments are. *)
Lemma gamma_zero_volatility (S K r T : R) (ui : streamlit) :
  compute_gamma (Fin S) (Fin K) (Fin r) (Fin T) (Fin 0) ui
  = (PyFloat NaN, ui).
Proof.
  unfold compute_gamma. cbn [try_return]. do 2 f_equal.
  destruct (Np.sqrt (Fin T)) as [q | | |] eqn:Eq;
    try (cbn in Eq; destruct (Rcompare T 0); discriminate).
  - cbn [Np.mul].
    set (num := (Np.log (Fin S / Fin K)
                 + (Fin r + Np.square (Fin 0) / Fin 2) * Fin T)%np).
    assert (Hd : Norm.pdf (num / Fin (0 * q))%np = Fin 0
                 \/ Norm.pdf (num / Fin (0 * q))%np = NaN).
    { destruct num as [x | | |]; cbn [Np.div];
        rewrite ?(Rcompare_eq0 (0 * q)) by ring;
        try destruct (Rcompare x 0); cbn; auto. }
    destruct Hd as [-> | ->]; cbn [Np.div]; [| reflexivity].
    rewrite (Rcompare_eq0 (S * 0 * q)) by ring.
    now rewrite Rcompare_zero.
  - cbn [Np.mul].
    match goal with |- (?a / NaN)%np = _ => destruct a; reflexivity end.
Qed.

(** ** The sweeps of the script *)

Lemma maturity_time_fin (w : sidebar) :
  maturity_time w = Fin (IZR (days_to_maturity w) / 365).
Proof.
  unfold maturity_time. apply div_fin. lra.
Qed.

Lemma maturity_time_pos (w : sidebar) :
  (1 <= days_to_maturity w)%Z -> 0 < IZR (days_to_maturity w) / 365.
Proof.
  intros Hd. apply IZR_le in Hd. apply Rdiv_lt_0_compat; lra.
Qed.

(** For a spot price of at least one, the range starts at zero. *)
Lemma spot_prices_range_head (w : sidebar) :
  1 <= spot_price w ->
  exists rest : list float64, spot_prices_range w = Fin 0 :: rest.
Proof.
  intros HS. unfold spot_prices_range, np_arange.
  destruct (Z.to_nat (ceil (spot_price w + 50 + 1))) as [| n] eqn:EN.
  - assert (H : (0 < Z.to_nat (ceil (spot_price w + 50 + 1)))%nat)
      by (apply below_ceil; simpl; lra).
    lia.
  - eexists. reflexivity.
Qed.

(** X11: with inputs in the ranges of the widgets and a positive volatility,
    the gamma chart starts with NaN: its first point is gamma at the
    spot price zero. *)
Theorem gammas_first_is_nan (w : sidebar) (ui : streamlit) :
  in_widget_range w -> 0 < volatility w ->
  exists rest : list pyval, gammas w ui = (PyFloat NaN :: rest, ui).
Proof.
  intros (Hr & HS & HK & Hd & Hv) Hpos.
  unfold gammas.
  rewrite comprehension_pure by (intros spot; apply compute_gamma_pure).
  destruct (spot_prices_range_head w HS) as [rest ->].
  cbn [map]. rewrite maturity_time_fin.
  pose proof (maturity_time_pos w Hd) as HT.
  assert (HK0 : 0 < strike_price w) by lra.
  unfold compute_gamma. rewrite d1_spot_zero by assumption.
  rewrite sqrt_fin by lra. evaluate.
  rewrite (Rcompare_eq0 (0 * volatility w * sqrt _)) by ring.
  rewrite Rcompare_zero.
  eexists. reflexivity.
Qed.

(** X12: with the volatility widget at zero every point of the gamma chart
    is NaN. *)
Theorem gammas_all_nan_zero_volatility (w : sidebar) (ui : streamlit) :
  volatility w = 0 ->
  Forall (fun v => v = PyFloat NaN) (fst (gammas w ui))
  /\ snd (gammas w ui) = ui.
Proof.
  intros Hv. unfold gammas.
  rewrite comprehension_pure by (intros spot; apply compute_gamma_pure).
  split; [| reflexivity]. cbn [fst].
  apply Forall_forall. intros v Hin.
  apply in_map_iff in Hin. destruct Hin as (spot & <- & Hspot).
  unfold spot_prices_range, np_arange in Hspot.
  apply in_map_iff in Hspot. destruct Hspot as (n & <- & _).
  rewrite maturity_time_fin, Hv, gamma_zero_volatility. reflexivity.
Qed.

(** The value at position [i] of a series computed by a function that
    leaves the interface state alone is its value at the spot price
    [i]. *)
Lemma sweep_nth_error (w : sidebar) (g : float64 -> pyval) (i : nat) :
  (i < List.length (spot_prices_range w))%nat ->
  nth_error (map g (spot_prices_range w)) i = Some (g (Fin (INR i))).
Proof.
  unfold spot_prices_range, np_arange. rewrite map_map, length_map, length_seq.
  set (N := Z.to_nat (ceil (spot_price w + 50 + 1))).
  intros Hi.
  rewrite (nth_error_nth' _ (g (Fin (INR 0))))
    by now rewrite length_map, length_seq.
  rewrite (map_nth (fun x => g (Fin (INR x))) (seq 0 N) 0%nat).
  now rewrite seq_nth.
Qed.

Section CallDeltas.

Variable Phi : R -> R.
Hypothesis Phi_range : forall x : R, 0 < Phi x < 1.
Hypothesis Phi_monotone : forall x y : R, x <= y -> Phi x <= Phi y.

(** The call delta at the whole spot price [n]: zero at the spot price
    zero, [Phi(d1)] above. *)
Lemma call_delta_at (K r T sigma : R) (n : nat) (ui : streamlit) :
  0 < K -> 0 < T -> 0 < sigma ->
  compute_delta Phi (Fin (INR n)) (Fin K) (Fin r) (Fin T) (Fin sigma)
    "call" ui
  = (PyFloat (Fin (match n with
                   | O => 0
                   | _ => Phi (Formula.d1 (INR n) K r T sigma)
                   end)), ui).
Proof.
  intros HK HT Hs. unfold compute_delta. destruct n as [| n].
  - simpl INR. rewrite d1_spot_zero by assumption. reflexivity.
  - assert (Hn : 0 < INR (Datatypes.S n)) by (apply lt_0_INR; lia).
    intermediates. reflexivity.
Qed.

(** X13: sweep monotonicity on the chart itself: with inputs in the ranges
    of the widgets, a positive volatility and the option type Call, the
    delta series holds finite numbers that never decrease from one spot
    price to the next, the point at the spot price zero included. *)
Theorem call_deltas_ascending (w : sidebar) (ui : streamlit) (i j : nat) :
  in_widget_range w -> 0 < volatility w ->
  option_type_selection w = "Call"%string ->
  (i <= j < List.length (spot_prices_range w))%nat ->
  exists x y : R,
    nth_error (fst (deltas Phi w ui)) i = Some (PyFloat (Fin x))
    /\ nth_error (fst (deltas Phi w ui)) j = Some (PyFloat (Fin y))
    /\ x <= y.
Proof.
  intros (Hr & HS & HK & Hd & Hv) Hpos Hsel [Hij Hj].
  unfold deltas.
  rewrite comprehension_pure
    by (intros spot; apply compute_delta_pure, option_type_known).
  cbn [fst]. rewrite !sweep_nth_error by lia.
  assert (Hot : option_type w = "call"%string)
    by (unfold option_type; now rewrite Hsel).
  pose proof (maturity_time_pos w Hd) as HT.
  assert (HK0 : 0 < strike_price w) by lra.
  rewrite maturity_time_fin, Hot, !call_delta_at by assumption.
  cbn [fst].
  eexists; eexists. split; [reflexivity |]. split; [reflexivity |].
  destruct i as [| i].
  - destruct j; [lra |]. left. apply Phi_range.
  - destruct j as [| j]; [lia |].
    apply Phi_monotone, d1_monotone; try assumption.
    split; [apply lt_0_INR; lia | apply le_INR; lia].
Qed.

End CallDeltas.

(** A comprehension yields one value per element, whatever the calls
    do to the interface state. *)
Lemma comprehension_length
    (f : float64 -> streamlit -> pyval * streamlit) (xs : list float64)
    (ui : streamlit) :
  List.length (fst (comprehension f xs ui)) = List.length xs.
Proof.
  revert ui. induction xs as [| x rest IH]; intros ui; [reflexivity |].
  cbn [comprehension]. destruct (f x ui) as [v ui1].
  specialize (IH ui1). destruct (comprehension f rest ui1) as [vs ui2].
  cbn [fst List.length] in *. now rewrite IH.
Qed.

(** X14: the six series have one point per spot price of the range, and for
    a spot price of at least one that is at least 52 points. *)
Theorem series_lengths (Phi : R -> R) (w : sidebar) (ui : streamlit) :
  1 <= spot_price w ->
  let n := List.length (spot_prices_range w) in
  (52 <= n)%nat
  /\ List.length (fst (option_prices Phi w ui)) = n
  /\ List.length (fst (deltas Phi w ui)) = n
  /\ List.length (fst (gammas w ui)) = n
  /\ List.length (fst (thetas Phi w ui)) = n
  /\ List.length (fst (vegas w ui)) = n
  /\ List.length (fst (rhos Phi w ui)) = n.
Proof.
  intros HS n. split.
  - unfold n, spot_prices_range. rewrite np_arange_length.
    apply below_ceil. simpl. lra.
  - unfold option_prices, deltas, gammas, thetas, vegas, rhos.
    repeat split; apply comprehension_length.
Qed.

(** X15: with a zero volatility, which the sidebar accepts, the price is the
    payoff against the discounted strike: [d1] is infinite with the sign
    of [ln(S/K) + r*T]. *)
Theorem price_zero_volatility (Phi : R -> R) (S K r T : R) (ui : streamlit) :
  0 < S -> 0 < K -> 0 <= T ->
  let price := compute_option_price Phi (Fin S) (Fin K) (Fin r) (Fin T)
                 (Fin 0) in
  (0 < ln (S / K) + r * T ->
     price "call"%string ui = (PyFloat (Fin (S - K * exp (- (r * T)))), ui)
     /\ price "put"%string ui = (PyFloat (Fin 0), ui))
  /\ (ln (S / K) + r * T < 0 ->
        price "call"%string ui = (PyFloat (Fin 0), ui)
        /\ price "put"%string ui
           = (PyFloat (Fin (K * exp (- (r * T)) - S)), ui)).
Proof.
  intros HS HK HT price. unfold price, compute_option_price.
  rewrite (div_fin S K) by lra.
  rewrite log_fin by (apply Rdiv_lt_0_compat; lra).
  rewrite sqrt_fin by lra.
  unfold Np.square. cbn [Np.mul Np.add].
  rewrite (div_fin _ 2) by lra. cbn [Np.mul Np.add Np.div].
  rewrite (Rcompare_eq0 (0 * sqrt T)) by ring.
  replace (ln (S / K) + (r + 0 * 0 / 2) * T) with (ln (S / K) + r * T)
    by field.
  split; intros Hm.
  - rewrite Rcompare_pos by assumption. evaluate.
    replace (- r * T) with (- (r * T)) by ring.
    split; apply (f_equal (fun x => (PyFloat (Fin x), ui))); ring.
  - rewrite Rcompare_neg by assumption. evaluate.
    replace (- r * T) with (- (r * T)) by ring.
    split; apply (f_equal (fun x => (PyFloat (Fin x), ui))); ring.
Qed.

(** ** The further properties at the default inputs *)

Lemma defaults_in_widget_range : in_widget_range defaults.
Proof.
  unfold in_widget_range. simpl. repeat split; try lra. lia.
Defined.

Lemma at_the_money_valid : Formula.valid 50 50 0 (250 / 365) 0.3.
Proof.
  unfold Formula.valid. lra.
Defined.



Lemma put_delta_is_call_delta_minus_one_default :
  compute_delta logistic (Fin 30) (Fin 50) (Fin 0.03) (Fin (250 / 365))
    (Fin 0.3) "call" fresh
  = (PyFloat (Fin (logistic (Formula.d1 30 50 0.03 (250 / 365) 0.3))), fresh)
  /\ compute_delta logistic (Fin 30) (Fin 50) (Fin 0.03) (Fin (250 / 365))
       (Fin 0.3) "put" fresh
     = (PyFloat (Fin (logistic (Formula.d1 30 50 0.03 (250 / 365) 0.3) - 1)),
        fresh).
Proof.
  exact (put_delta_is_call_delta_minus_one logistic 30 50 0.03 (250 / 365)
           0.3 default_valid logistic_symmetric fresh).
Defined.

Lemma at_the_money_symmetry_fifty :
  exists price : R,
    compute_option_price logistic (Fin 50) (Fin 50) (Fin 0)
      (Fin (250 / 365)) (Fin 0.3) "call" fresh = (PyFloat (Fin price), fresh)
    /\ compute_option_price logistic (Fin 50) (Fin 50) (Fin 0)
         (Fin (250 / 365)) (Fin 0.3) "put" fresh
       = (PyFloat (Fin price), fresh).
Proof.
  exact (at_the_money_symmetry logistic 50 50 0 (250 / 365) 0.3
           at_the_money_valid logistic_symmetric fresh eq_refl eq_refl).
Defined.

Lemma price_upper_bounds_default :
  exists call put : R,
    compute_option_price logistic (Fin 30) (Fin 50) (Fin 0.03)
      (Fin (250 / 365)) (Fin 0.3) "call" fresh = (PyFloat (Fin call), fresh)
    /\ compute_option_price logistic (Fin 30) (Fin 50) (Fin 0.03)
         (Fin (250 / 365)) (Fin 0.3) "put" fresh = (PyFloat (Fin put), fresh)
    /\ call < 30 /\ put < 50.
Proof.
  exact (price_upper_bounds logistic 30 50 0.03 (250 / 365) 0.3
           default_valid logistic_range fresh).
Defined.


Lemma theta_parity_default :
  exists call put : R,
    compute_theta logistic (Fin 30) (Fin 50) (Fin 0.03) (Fin (250 / 365))
      (Fin 0.3) "call" fresh = (PyFloat (Fin call), fresh)
    /\ compute_theta logistic (Fin 30) (Fin 50) (Fin 0.03) (Fin (250 / 365))
         (Fin 0.3) "put" fresh = (PyFloat (Fin put), fresh)
    /\ put - call = 0.03 * 50 * exp (- (0.03 * (250 / 365))) / 365.
Proof.
  exact (theta_parity logistic 30 50 0.03 (250 / 365) 0.3 default_valid
           logistic_symmetric fresh).
Defined.


Lemma price_at_expiry_default :
  compute_option_price logistic (Fin 30) (Fin 50) (Fin 0.03) (Fin 0)
    (Fin 0.3) "call" fresh = (PyFloat (Fin 0), fresh)
  /\ compute_option_price logistic (Fin 30) (Fin 50) (Fin 0.03) (Fin 0)
       (Fin 0.3) "put" fresh = (PyFloat (Fin (50 - 30)), fresh).
Proof.
  apply (price_at_expiry logistic 30 50 0.03 0.3 fresh); lra.
Defined.

Lemma spot_zero_values_default :
  compute_option_price logistic (Fin 0) (Fin 50) (Fin 0.03)
    (Fin (250 / 365)) (Fin 0.3) "call" fresh = (PyFloat (Fin 0), fresh)
  /\ compute_option_price logistic (Fin 0) (Fin 50) (Fin 0.03)
       (Fin (250 / 365)) (Fin 0.3) "put" fresh
     = (PyFloat (Fin (50 * exp (- (0.03 * (250 / 365))))), fresh)
  /\ compute_delta logistic (Fin 0) (Fin 50) (Fin 0.03) (Fin (250 / 365))
       (Fin 0.3) "call" fresh = (PyFloat (Fin 0), fresh)
  /\ compute_delta logistic (Fin 0) (Fin 50) (Fin 0.03) (Fin (250 / 365))
       (Fin 0.3) "put" fresh = (PyFloat (Fin (- 1)), fresh)
  /\ compute_vega (Fin 0) (Fin 50) (Fin 0.03) (Fin (250 / 365)) (Fin 0.3)
       fresh = (PyFloat (Fin 0), fresh)
  /\ compute_gamma (Fin 0) (Fin 50) (Fin 0.03) (Fin (250 / 365)) (Fin 0.3)
       fresh = (PyFloat NaN, fresh).
Proof.
  apply (spot_zero_values logistic 50 0.03 (250 / 365) 0.3 fresh); lra.
Defined.

Lemma gammas_first_is_nan_default :
  exists rest : list pyval,
    gammas defaults fresh = (PyFloat NaN :: rest, fresh).
Proof.
  apply (gammas_first_is_nan defaults fresh defaults_in_widget_range).
  simpl. lra.
Defined.

Lemma gammas_all_nan_zero_volatility_default :
  Forall (fun v => v = PyFloat NaN) (fst (gammas zero_volatility fresh))
  /\ snd (gammas zero_volatility fresh) = fresh.
Proof.
  apply (gammas_all_nan_zero_volatility zero_volatility fresh).
  reflexivity.
Defined.

Lemma call_deltas_ascending_default :
  exists x y : R,
    nth_error (fst (deltas logistic defaults fresh)) 0
    = Some (PyFloat (Fin x))
    /\ nth_error (fst (deltas logistic defaults fresh)) 1
       = Some (PyFloat (Fin y))
    /\ x <= y.
Proof.
  apply (call_deltas_ascending logistic logistic_range logistic_monotone
           defaults fresh 0 1 defaults_in_widget_range).
  - simpl. lra.
  - reflexivity.
  - split; [lia |].
    unfold spot_prices_range. rewrite np_arange_length.
    apply below_ceil. simpl. lra.
Defined.

Lemma series_lengths_default :
  let n := List.length (spot_prices_range defaults) in
  (52 <= n)%nat
  /\ List.length (fst (option_prices logistic defaults fresh)) = n
  /\ List.length (fst (deltas logistic defaults fresh)) = n
  /\ List.length (fst (gammas defaults fresh)) = n
  /\ List.length (fst (thetas logistic defaults fresh)) = n
  /\ List.length (fst (vegas defaults fresh)) = n
  /\ List.length (fst (rhos logistic defaults fresh)) = n.
Proof.
  apply (series_lengths logistic defaults fresh). simpl. lra.
Defined.

Lemma price_zero_volatility_default :
  compute_option_price logistic (Fin 60) (Fin 50) (Fin 0.03)
    (Fin (250 / 365)) (Fin 0) "call" fresh
  = (PyFloat (Fin (60 - 50 * exp (- (0.03 * (250 / 365))))), fresh)
  /\ compute_option_price logistic (Fin 60) (Fin 50) (Fin 0.03)
       (Fin (250 / 365)) (Fin 0) "put" fresh = (PyFloat (Fin 0), fresh).
Proof.
  apply (price_zero_volatility logistic 60 50 0.03 (250 / 365) fresh);
    try lra.
  assert (H : 0 < ln (60 / 50)) by (apply ln_pos; lra).
  lra.
Defined.
